(** * MX_Device.h: the STM32CubeMX parameter definitions of the USB audio DAC

    The header [STM32CubeMX/STM32F4/MX_Device/MX_Device.h] is a generated
    table of object-like macros.  It is embedded here line by line; the
    few preprocessor rules the header relies on ([#ifndef]/[#endif],
    [#define] of an object-like macro, rescanning of a replacement list,
    [#if] on a macro name) are written as functions over that text, and the
    properties of the table are proved about what these functions compute
    from the embedded lines. *)

From Stdlib Require Import String Ascii List ZArith Bool Arith Lia Permutation.
Import ListNotations.
Open Scope string_scope.

(** ** Small string helpers *)

Definition ends_with (suffix s : string) : bool :=
  let ls := String.length s in
  let lf := String.length suffix in
  (lf <=? ls)%nat && String.eqb (substring (ls - lf) lf s) suffix.

Definition starts_with (pre s : string) : bool := String.prefix pre s.

(** [between pre suf s] is what is left of [s] once the prefix [pre] and the
    suffix [suf] are taken away. *)
Definition between (pre suf s : string) : string :=
  substring (String.length pre)
            (String.length s - String.length pre - String.length suf) s.

(** ** The text of the header *)

(** One physical line of the header.  The replacement list of a [#define]
    is kept as the list of its preprocessing tokens, spelled as in the
    file. *)
Inductive line : Type :=
| Blank
| Comment (text : string)
| Banner (peripheral : string)
| Ifndef (name : string)
| Define (name : string) (body : list string)
| Endif.

Definition MX_Device_h : list line :=
  [ Comment "****************************************************************************"
  ; Comment "File Name   : MX_Device.h"
  ; Comment "Date        : 04/10/2025 17:42:17"
  ; Comment "Description : STM32Cube MX parameter definitions"
  ; Comment "Note        : This file is generated with a generator out of the"
  ; Comment "              STM32CubeMX project and its generated files (DO NOT EDIT!)"
  ; Comment "****************************************************************************"
  ; Blank
  ; Ifndef "MX_DEVICE_H__"
  ; Define "MX_DEVICE_H__" []
  ; Blank
  ; Comment "MX_Device.h version"
  ; Define "MX_DEVICE_VERSION"         ["0x01000000"]
  ; Blank
  ; Blank
  ; Banner "I2C1"
  ; Define "MX_I2C1"                   ["1"]
  ; Blank
  ; Comment "Pins"
  ; Blank
  ; Comment "I2C1_SCL"
  ; Define "MX_I2C1_SCL_Pin"           ["PB6"]
  ; Define "MX_I2C1_SCL_GPIO_Pin"      ["GPIO_PIN_6"]
  ; Define "MX_I2C1_SCL_GPIOx"         ["GPIOB"]
  ; Define "MX_I2C1_SCL_GPIO_Mode"     ["GPIO_MODE_AF_OD"]
  ; Define "MX_I2C1_SCL_GPIO_PuPd"     ["GPIO_PULLUP"]
  ; Define "MX_I2C1_SCL_GPIO_Speed"    ["GPIO_SPEED_FREQ_LOW"]
  ; Define "MX_I2C1_SCL_GPIO_AF"       ["GPIO_AF4_I2C1"]
  ; Blank
  ; Comment "I2C1_SDA"
  ; Define "MX_I2C1_SDA_Pin"           ["PB9"]
  ; Define "MX_I2C1_SDA_GPIO_Pin"      ["GPIO_PIN_9"]
  ; Define "MX_I2C1_SDA_GPIOx"         ["GPIOB"]
  ; Define "MX_I2C1_SDA_GPIO_Mode"     ["GPIO_MODE_AF_OD"]
  ; Define "MX_I2C1_SDA_GPIO_PuPd"     ["GPIO_PULLUP"]
  ; Define "MX_I2C1_SDA_GPIO_Speed"    ["GPIO_SPEED_FREQ_LOW"]
  ; Define "MX_I2C1_SDA_GPIO_AF"       ["GPIO_AF4_I2C1"]
  ; Blank
  ; Banner "SPI1"
  ; Define "MX_SPI1"                   ["1"]
  ; Blank
  ; Comment "Peripheral Clock Frequency"
  ; Define "MX_SPI1_PERIPH_CLOCK_FREQ" ["84000000"]
  ; Blank
  ; Comment "Pins"
  ; Blank
  ; Comment "SPI1_MISO"
  ; Define "MX_SPI1_MISO_Pin"          ["PA6"]
  ; Define "MX_SPI1_MISO_GPIO_Pin"     ["GPIO_PIN_6"]
  ; Define "MX_SPI1_MISO_GPIOx"        ["GPIOA"]
  ; Define "MX_SPI1_MISO_GPIO_Mode"    ["GPIO_MODE_AF_PP"]
  ; Define "MX_SPI1_MISO_GPIO_PuPd"    ["GPIO_NOPULL"]
  ; Define "MX_SPI1_MISO_GPIO_Speed"   ["GPIO_SPEED_FREQ_LOW"]
  ; Define "MX_SPI1_MISO_GPIO_AF"      ["GPIO_AF5_SPI1"]
  ; Blank
  ; Comment "SPI1_MOSI"
  ; Define "MX_SPI1_MOSI_Pin"          ["PA7"]
  ; Define "MX_SPI1_MOSI_GPIO_Pin"     ["GPIO_PIN_7"]
  ; Define "MX_SPI1_MOSI_GPIOx"        ["GPIOA"]
  ; Define "MX_SPI1_MOSI_GPIO_Mode"    ["GPIO_MODE_AF_PP"]
  ; Define "MX_SPI1_MOSI_GPIO_PuPd"    ["GPIO_NOPULL"]
  ; Define "MX_SPI1_MOSI_GPIO_Speed"   ["GPIO_SPEED_FREQ_LOW"]
  ; Define "MX_SPI1_MOSI_GPIO_AF"      ["GPIO_AF5_SPI1"]
  ; Blank
  ; Comment "SPI1_SCK"
  ; Define "MX_SPI1_SCK_Pin"           ["PA5"]
  ; Define "MX_SPI1_SCK_GPIO_Pin"      ["GPIO_PIN_5"]
  ; Define "MX_SPI1_SCK_GPIOx"         ["GPIOA"]
  ; Define "MX_SPI1_SCK_GPIO_Mode"     ["GPIO_MODE_AF_PP"]
  ; Define "MX_SPI1_SCK_GPIO_PuPd"     ["GPIO_NOPULL"]
  ; Define "MX_SPI1_SCK_GPIO_Speed"    ["GPIO_SPEED_FREQ_VERY_HIGH"]
  ; Define "MX_SPI1_SCK_GPIO_AF"       ["GPIO_AF5_SPI1"]
  ; Blank
  ; Banner "USB_DEVICE"
  ; Define "MX_USB_DEVICE"             ["1"]
  ; Blank
  ; Comment "Virtual mode"
  ; Define "MX_USB_DEVICE_VM"          ["Cdc_FS"]
  ; Define "MX_USB_DEVICE_Cdc_FS"      ["1"]
  ; Blank
  ; Blank
  ; Banner "USB_OTG_FS"
  ; Define "MX_USB_OTG_FS"             ["1"]
  ; Blank
  ; Comment "Virtual mode"
  ; Define "MX_USB_OTG_FS_VM"          ["Device_Only"]
  ; Define "MX_USB_OTG_FS_Device_Only" ["1"]
  ; Blank
  ; Blank
  ; Endif
  ].

(** ** Macro tables *)

(** A macro as the table keeps it: its name, the peripheral banner it was
    defined under (none before the first banner) and its replacement list. *)
Record macro : Type := mkMacro
  { m_name : string
  ; m_group : option string
  ; m_body : list string }.

Definition body_eq_dec (a b : list string) : {a = b} + {a <> b} :=
  list_eq_dec string_dec a b.

Fixpoint lookup_macro (n : string) (env : list macro) : option macro :=
  match env with
  | [] => None
  | m :: env' => if String.eqb n (m_name m) then Some m else lookup_macro n env'
  end.

Definition defined (n : string) (env : list macro) : bool :=
  match lookup_macro n env with Some _ => true | None => false end.

Fixpoint remove_macro (n : string) (env : list macro) : list macro :=
  match env with
  | [] => []
  | m :: env' =>
      if String.eqb n (m_name m) then remove_macro n env'
      else m :: remove_macro n env'
  end.

Definition names (env : list macro) : list string := map m_name env.

(** ** Reading the header *)

Inductive pp_error : Type :=
| Redefined (name : string)
| EndifWithoutIf
| UnterminatedIf.

Inductive result (A : Type) : Type :=
| Ok (a : A)
| Err (e : pp_error).
Arguments Ok {A} a.
Arguments Err {A} e.

(** The reader's state: the macros defined so far (in definition order), the
    stack of open conditionals (true: the group is being read, false: it is
    skipped) and the peripheral banner in force. *)
Record pp_state : Type := mkState
  { st_macros : list macro
  ; st_conds : list bool
  ; st_group : option string }.

Definition active (st : pp_state) : bool := forallb (fun b => b) (st_conds st).

(** [#define] of a name that is already defined is accepted only when the
    replacement list is the same; it then leaves the table as it is. *)
Definition step (st : pp_state) (l : line) : result pp_state :=
  match l with
  | Blank | Comment _ => Ok st
  | Banner p => Ok (mkState (st_macros st) (st_conds st) (Some p))
  | Ifndef n =>
      Ok (mkState (st_macros st)
                  ((active st && negb (defined n (st_macros st))) :: st_conds st)
                  (st_group st))
  | Endif =>
      match st_conds st with
      | [] => Err EndifWithoutIf
      | _ :: cs => Ok (mkState (st_macros st) cs (st_group st))
      end
  | Define n b =>
      if active st then
        match lookup_macro n (st_macros st) with
        | None =>
            Ok (mkState (st_macros st ++ [mkMacro n (st_group st) b])
                        (st_conds st) (st_group st))
        | Some m =>
            if body_eq_dec (m_body m) b then Ok st else Err (Redefined n)
        end
      else Ok st
  end.

Fixpoint run (st : pp_state) (ls : list line) : result pp_state :=
  match ls with
  | [] => Ok st
  | l :: ls' =>
      match step st l with
      | Ok st' => run st' ls'
      | Err e => Err e
      end
  end.

(** Reading a whole file, starting from the macros [env0] already defined. *)
Definition preprocess (env0 : list macro) (ls : list line) : result (list macro) :=
  match run (mkState env0 [] None) ls with
  | Ok st =>
      match st_conds st with
      | [] => Ok (st_macros st)
      | _ :: _ => Err UnterminatedIf
      end
  | Err e => Err e
  end.

(** The table a translation unit sees after including the header first. *)
Definition MX_Device_env : list macro :=
  match preprocess [] MX_Device_h with
  | Ok env => env
  | Err _ => []
  end.

(** The [#define] lines as written, each tagged with the banner above it,
    whatever the conditionals around them. *)
Fixpoint definitions_from (g : option string) (ls : list line) : list macro :=
  match ls with
  | [] => []
  | Banner p :: ls' => definitions_from (Some p) ls'
  | Define n b :: ls' => mkMacro n g b :: definitions_from g ls'
  | _ :: ls' => definitions_from g ls'
  end.

Definition definitions (ls : list line) : list macro := definitions_from None ls.

(** The peripheral banners of a file, in order. *)
Fixpoint peripherals (ls : list line) : list string :=
  match ls with
  | [] => []
  | Banner p :: ls' => p :: peripherals ls'
  | _ :: ls' => peripherals ls'
  end.

(** The peripheral a macro belongs to by its name: the banner of the file
    whose name follows MX_ at the start of the macro's name. *)
Definition group_of_name (n : string) : option string :=
  find (fun g => starts_with ("MX_" ++ g) n) (peripherals MX_Device_h).

(** The macros that stand for a value: those with a replacement list. *)
Definition constants (env : list macro) : list macro :=
  filter (fun m => match m_body m with [] => false | _ :: _ => true end) env.

(** ** Using a macro *)

(** Rescanning: a token that names a macro is replaced by the macro's
    replacement list, which is rescanned with that macro out of the table
    (a macro is never replaced inside its own expansion). *)
Fixpoint expand_fuel (fuel : nat) (env : list macro) (t : string) : list string :=
  match fuel with
  | O => [t]
  | S k =>
      match lookup_macro t env with
      | None => [t]
      | Some m => flat_map (expand_fuel k (remove_macro t env)) (m_body m)
      end
  end.

Definition expand (env : list macro) (t : string) : list string :=
  expand_fuel (List.length env) env t.

(** Integer constants of the C preprocessor: decimal, octal (leading 0) and
    hexadecimal (leading 0x or 0X), without suffix. *)
Definition digit_value (c : ascii) : option Z :=
  let n := Z.of_nat (nat_of_ascii c) in
  if (48 <=? n)%Z && (n <=? 57)%Z then Some (n - 48)%Z
  else if (97 <=? n)%Z && (n <=? 102)%Z then Some (n - 87)%Z
  else if (65 <=? n)%Z && (n <=? 70)%Z then Some (n - 55)%Z
  else None.

Fixpoint digits (base acc : Z) (s : string) : option Z :=
  match s with
  | EmptyString => Some acc
  | String c s' =>
      match digit_value c with
      | Some d => if (d <? base)%Z then digits base (base * acc + d)%Z s' else None
      | None => None
      end
  end.

Definition int_constant (s : string) : option Z :=
  match s with
  | EmptyString => None
  | String "0" (String "x" (String c r)) => digits 16 0 (String c r)
  | String "0" (String "X" (String c r)) => digits 16 0 (String c r)
  | String "0" r => digits 8 0 r
  | _ => digits 10 0 s
  end.

Definition is_ident_start (c : ascii) : bool :=
  let n := nat_of_ascii c in
  ((65 <=? n) && (n <=? 90) || (97 <=? n) && (n <=? 122) || (n =? 95))%nat.

Definition is_ident_char (c : ascii) : bool :=
  let n := nat_of_ascii c in
  (is_ident_start c || (48 <=? n) && (n <=? 57))%nat.

Fixpoint all_chars (p : ascii -> bool) (s : string) : bool :=
  match s with
  | EmptyString => true
  | String c s' => p c && all_chars p s'
  end.

Definition is_identifier (s : string) : bool :=
  match s with
  | EmptyString => false
  | String c s' => is_ident_start c && all_chars is_ident_char s'
  end.

(** The integer a macro stands for, when its expansion is one integer
    constant. *)
Definition macro_value (env : list macro) (n : string) : option Z :=
  match expand env n with
  | [t] => int_constant t
  | _ => None
  end.

(** The token a macro resolves to, when its expansion is one token. *)
Definition resolve (env : list macro) (n : string) : option string :=
  match expand env n with
  | [t] => Some t
  | _ => None
  end.

(** [#ifdef n] and [#if n] for a single name [n]: in [#if], an identifier
    left after expansion counts as 0. *)
Definition pp_ifdef (env : list macro) (n : string) : bool := defined n env.

Definition pp_if (env : list macro) (n : string) : option bool :=
  match expand env n with
  | [t] =>
      match int_constant t with
      | Some z => Some (negb (z =? 0)%Z)
      | None => if is_identifier t then Some false else None
      end
  | _ => None
  end.

(** Every use of the name [n] gives a result: it resolves to one token and
    an [#if] on it can be decided. *)
Definition evaluates (env : list macro) (n : string) : bool :=
  match resolve env n, pp_if env n with
  | Some _, Some _ => true
  | _, _ => false
  end.

(** ** Pin entries *)

(** The attribute macros of a pin entry are named MX_<pin>_<attribute>. *)
Definition pin_attributes : list string :=
  ["Pin"; "GPIO_Pin"; "GPIOx"; "GPIO_Mode"; "GPIO_PuPd"; "GPIO_Speed"; "GPIO_AF"].

Definition attribute_name (pin attr : string) : string :=
  "MX_" ++ pin ++ "_" ++ attr.

(** A pin entry opens with its symbolic name, MX_<pin>_Pin; the pins of a
    table are read off these macros. *)
Definition is_pin_name_macro (n : string) : bool :=
  starts_with "MX_" n && ends_with "_Pin" n && negb (ends_with "_GPIO_Pin" n).

Definition pin_entries (env : list macro) : list string :=
  map (fun m => between "MX_" "_Pin" (m_name m))
      (filter (fun m => is_pin_name_macro (m_name m)) env).

(** The written definitions give macro [n] the replacement list [b]. *)
Definition binds (defs : list macro) (n : string) (b : list string) : Prop :=
  exists m, In m defs /\ m_name m = n /\ m_body m = b.

(** The port/mode/speed/alternate-function tuple of a pin. *)
Definition pin_tuple (defs : list macro) (pin : string)
  (t : list string * list string * list string * list string) : Prop :=
  let '(port, mode, speed, af) := t in
  binds defs (attribute_name pin "GPIOx") port /\
  binds defs (attribute_name pin "GPIO_Mode") mode /\
  binds defs (attribute_name pin "GPIO_Speed") speed /\
  binds defs (attribute_name pin "GPIO_AF") af.

Definition is_clock_freq_name (n : string) : bool :=
  ends_with "_PERIPH_CLOCK_FREQ" n.

Definition clock_freq_name (p : string) : string :=
  "MX_" ++ p ++ "_PERIPH_CLOCK_FREQ".

Definition presence_flag (p : string) : string := "MX_" ++ p.

Definition vm_name (p : string) : string := "MX_" ++ p ++ "_VM".

(** The companion flag of a virtual mode: MX_<peripheral>_<mode>. *)
Definition vm_companion (p mode : string) : string := "MX_" ++ p ++ "_" ++ mode.

(** ** The data model of the specification

    The specification describes the same table as structured data:
    constants grouped by peripheral; a pin entry with seven attributes; a
    clock frequency for SPI1; a virtual-mode selector for the two USB
    peripherals.  [reference_table] lists the constants that this
    description stands for, to be compared with what reading the header
    gives. *)

Record pin_entry : Type := mkPin
  { pin_label : string       (* the entry, for instance I2C1_SCL *)
  ; pin_symbol : string      (* symbolic pin name *)
  ; pin_bit : string         (* numeric pin-bit identifier *)
  ; pin_port : string        (* port identifier *)
  ; pin_mode : string        (* GPIO mode *)
  ; pin_pupd : string        (* pull-up/pull-down setting *)
  ; pin_speed : string       (* slew-rate/speed setting *)
  ; pin_af : string }.       (* alternate-function selector *)

Record peripheral : Type := mkPeripheral
  { per_name : string
  ; per_clock : option string
  ; per_pins : list pin_entry
  ; per_vm : option string }.

Definition spec_version : string := "0x01000000".

Definition spec_peripherals : list peripheral :=
  [ mkPeripheral "I2C1" None
      [ mkPin "I2C1_SCL" "PB6" "GPIO_PIN_6" "GPIOB" "GPIO_MODE_AF_OD"
              "GPIO_PULLUP" "GPIO_SPEED_FREQ_LOW" "GPIO_AF4_I2C1"
      ; mkPin "I2C1_SDA" "PB9" "GPIO_PIN_9" "GPIOB" "GPIO_MODE_AF_OD"
              "GPIO_PULLUP" "GPIO_SPEED_FREQ_LOW" "GPIO_AF4_I2C1" ]
      None
  ; mkPeripheral "SPI1" (Some "84000000")
      [ mkPin "SPI1_MISO" "PA6" "GPIO_PIN_6" "GPIOA" "GPIO_MODE_AF_PP"
              "GPIO_NOPULL" "GPIO_SPEED_FREQ_LOW" "GPIO_AF5_SPI1"
      ; mkPin "SPI1_MOSI" "PA7" "GPIO_PIN_7" "GPIOA" "GPIO_MODE_AF_PP"
              "GPIO_NOPULL" "GPIO_SPEED_FREQ_LOW" "GPIO_AF5_SPI1"
      ; mkPin "SPI1_SCK" "PA5" "GPIO_PIN_5" "GPIOA" "GPIO_MODE_AF_PP"
              "GPIO_NOPULL" "GPIO_SPEED_FREQ_VERY_HIGH" "GPIO_AF5_SPI1" ]
      None
  ; mkPeripheral "USB_DEVICE" None [] (Some "Cdc_FS")
  ; mkPeripheral "USB_OTG_FS" None [] (Some "Device_Only") ].

Definition pin_constants (g : string) (p : pin_entry) : list macro :=
  map (fun '(attr, v) => mkMacro (attribute_name (pin_label p) attr) (Some g) [v])
      [ ("Pin", pin_symbol p); ("GPIO_Pin", pin_bit p); ("GPIOx", pin_port p)
      ; ("GPIO_Mode", pin_mode p); ("GPIO_PuPd", pin_pupd p)
      ; ("GPIO_Speed", pin_speed p); ("GPIO_AF", pin_af p) ].

Definition peripheral_constants (p : peripheral) : list macro :=
  let g := per_name p in
  [mkMacro (presence_flag g) (Some g) ["1"]]
  ++ match per_clock p with
     | Some f => [mkMacro (clock_freq_name g) (Some g) [f]]
     | None => []
     end
  ++ flat_map (pin_constants g) (per_pins p)
  ++ match per_vm p with
     | Some v => [ mkMacro (vm_name g) (Some g) [v]
                 ; mkMacro (vm_companion g v) (Some g) ["1"] ]
     | None => []
     end.

Definition reference_table : list macro :=
  mkMacro "MX_DEVICE_VERSION" None [spec_version]
  :: flat_map peripheral_constants spec_peripherals.

(** Two tables are equivalent when every name finds the same macro (the
    same group and the same replacement list) in both, or in neither. *)
Definition equivalent (t1 t2 : list macro) : Prop :=
  forall n, lookup_macro n t1 = lookup_macro n t2.

(** ** Including the header in a translation unit *)

(** The include guard of the header. *)
Definition guard : string := "MX_DEVICE_H__".

(** A line other than a conditional directive. *)
Definition plain (l : line) : bool :=
  match l with
  | Ifndef _ | Endif => false
  | _ => true
  end.

(** The banner in force after the lines [ls], [g] being in force before. *)
Fixpoint last_group (g : option string) (ls : list line) : option string :=
  match ls with
  | [] => g
  | Banner p :: ls' => last_group (Some p) ls'
  | _ :: ls' => last_group g ls'
  end.

(** The lines above the #ifndef of the header (lines 1 to 8), and the lines
    between its #ifndef and its #endif (lines 10 to 89). *)
Definition header_prelude : list line := firstn 8 MX_Device_h.
Definition header_body : list line := firstn 80 (skipn 9 MX_Device_h).

(** Some name that the file defines is already a macro of [env0]. *)
Definition clashes (env0 : list macro) (ls : list line) : bool :=
  existsb (fun m => defined (m_name m) env0) (definitions ls).



(** The symbolic name of the pin at bit GPIO_PIN_<k> of port GPIO<X>:
    P<X><k>. *)
Definition pin_symbol_of (port bit : string) : string :=
  "P" ++ between "GPIO" "" port ++ between "GPIO_PIN_" "" bit.

(** The peripheral banner a pin entry is defined under. *)
Definition pin_group (env : list macro) (pin : string) : option string :=
  match lookup_macro (attribute_name pin "Pin") env with
  | Some m => m_group m
  | None => None
  end.

(** The symbolic name that the port and the bit of a pin entry call for. *)
Definition pin_symbol_expected (env : list macro) (pin : string) : option string :=
  match resolve env (attribute_name pin "GPIOx"),
        resolve env (attribute_name pin "GPIO_Pin") with
  | Some port, Some bit => Some (pin_symbol_of port bit)
  | _, _ => None
  end.

(** The pin is in an alternate-function mode and its alternate function is
    one of the peripheral the entry is defined under. *)
Definition pin_routed (env : list macro) (pin : string) : bool :=
  match pin_group env pin,
        resolve env (attribute_name pin "GPIO_AF"),
        resolve env (attribute_name pin "GPIO_Mode") with
  | Some g, Some af, Some mode =>
      ends_with ("_" ++ g) af && starts_with "GPIO_MODE_AF_" mode
  | _, _, _ => false
  end.

(** The output type and the pull resistor of a pin: its mode and its
    pull-up/pull-down setting. *)
Definition pin_drive (env : list macro) (pin : string) : option (string * string) :=
  match resolve env (attribute_name pin "GPIO_Mode"),
        resolve env (attribute_name pin "GPIO_PuPd") with
  | Some mode, Some pupd => Some (mode, pupd)
  | _, _ => None
  end.

(** * Properties *)

(** Goals of the form [forall x, In x l -> P x] over a closed list [l]. *)
Ltac each_member :=
  apply Forall_forall; repeat constructor; vm_compute; reflexivity.

(** A hypothesis [H : In x [a; b; ...]]: one goal for each member. *)
Ltac members H :=
  simpl in H; repeat (destruct H as [<- | H]); [.. | contradiction].

(** ** Macro tables in general *)

Section MacroTables.

Implicit Types (env : list macro) (m : macro) (n : string).

Lemma lookup_macro_sound env n m :
  lookup_macro n env = Some m -> In m env /\ m_name m = n.
Proof.
  induction env as [|m0 env IH]; simpl; [discriminate|].
  destruct (String.eqb n (m_name m0)) eqn:E.
  - intros [= <-]. apply String.eqb_eq in E. auto.
  - intros H. destruct (IH H). auto.
Qed.

Lemma lookup_macro_none env n :
  lookup_macro n env = None <-> ~ In n (names env).
Proof.
  induction env as [|m0 env IH]; simpl.
  - tauto.
  - destruct (String.eqb n (m_name m0)) eqn:E.
    + apply String.eqb_eq in E. split; [discriminate | intros H; exfalso; auto].
    + apply String.eqb_neq in E. rewrite IH. split.
      * intros H [H1 | H1]; [congruence | auto].
      * intros H H1. apply H. auto.
Qed.

Lemma lookup_macro_complete env m :
  NoDup (names env) -> In m env -> lookup_macro (m_name m) env = Some m.
Proof.
  induction env as [|m0 env IH]; simpl; [tauto|].
  intros Hnd [-> | Hin].
  - now rewrite String.eqb_refl.
  - inversion Hnd as [|? ? Hnot Hnd']; subst.
    destruct (String.eqb (m_name m) (m_name m0)) eqn:E.
    + apply String.eqb_eq in E. exfalso. apply Hnot. rewrite <- E.
      now apply in_map.
    + auto.
Qed.

Lemma lookup_macro_app env1 env2 n :
  lookup_macro n (env1 ++ env2) =
  match lookup_macro n env1 with
  | Some m => Some m
  | None => lookup_macro n env2
  end.
Proof.
  induction env1 as [|m0 env1 IH]; simpl; [reflexivity|].
  now destruct (String.eqb n (m_name m0)).
Qed.

(** In a table without repeated names, a name has one replacement list. *)
Lemma binds_functional env n b1 b2 :
  NoDup (names env) -> binds env n b1 -> binds env n b2 -> b1 = b2.
Proof.
  intros Hnd (m1 & Hin1 & Hn1 & <-) (m2 & Hin2 & Hn2 & <-).
  apply (lookup_macro_complete _ _ Hnd) in Hin1, Hin2.
  rewrite Hn1 in Hin1. rewrite Hn2 in Hin2. congruence.
Qed.

(** Tables without repeated names that hold the same macros are
    equivalent, in whatever order they list them. *)
Lemma equivalent_same_macros env1 env2 :
  NoDup (names env1) -> NoDup (names env2) ->
  (forall m, In m env1 <-> In m env2) ->
  equivalent env1 env2.
Proof.
  intros Hnd1 Hnd2 Hsame n.
  destruct (lookup_macro n env1) as [m1|] eqn:E1.
  - apply lookup_macro_sound in E1 as [Hin <-].
    symmetry. apply lookup_macro_complete; [assumption | now apply Hsame].
  - destruct (lookup_macro n env2) as [m2|] eqn:E2; [|reflexivity].
    apply lookup_macro_sound in E2 as [Hin <-].
    apply Hsame in Hin. apply (lookup_macro_complete _ _ Hnd1) in Hin.
    congruence.
Qed.

Lemma remove_macro_length env n :
  List.length (remove_macro n env) <= List.length env.
Proof.
  induction env as [|m0 env IH]; simpl; [lia|].
  destruct (String.eqb n (m_name m0)); simpl; lia.
Qed.

Lemma remove_macro_shrinks env n m :
  lookup_macro n env = Some m ->
  List.length (remove_macro n env) < List.length env.
Proof.
  induction env as [|m0 env IH]; simpl; [discriminate|].
  destruct (String.eqb n (m_name m0)).
  - intros _. pose proof (remove_macro_length env n). lia.
  - intros H. apply IH in H. simpl. lia.
Qed.

(** Expansion never needs more fuel than there are macros: every
    replacement takes one macro out of the table. *)
Lemma expand_fuel_stable fuel1 :
  forall fuel2 env t,
    List.length env <= fuel1 -> List.length env <= fuel2 ->
    expand_fuel fuel1 env t = expand_fuel fuel2 env t.
Proof.
  induction fuel1 as [|k IH]; intros fuel2 env t H1 H2.
  - destruct env; [|simpl in H1; lia].
    destruct fuel2; reflexivity.
  - destruct fuel2 as [|k2].
    + destruct env; [reflexivity | simpl in H2; lia].
    + simpl. destruct (lookup_macro t env) as [m|] eqn:E; [|reflexivity].
      apply remove_macro_shrinks in E.
      induction (m_body m) as [|t0 b IHb]; simpl; [reflexivity|].
      rewrite IHb. f_equal. apply IH; lia.
Qed.

Lemma expand_fuel_enough fuel env t :
  List.length env <= fuel -> expand_fuel fuel env t = expand env t.
Proof. intros H. unfold expand. apply expand_fuel_stable; lia. Qed.

(** A name that is not a macro is left alone. *)
Lemma expand_undefined env t :
  lookup_macro t env = None -> expand env t = [t].
Proof.
  intros H. unfold expand. destruct (List.length env); simpl; [reflexivity|].
  now rewrite H.
Qed.

End MacroTables.

(** ** Reading a file never repeats a name *)

Section Reader.

Lemma names_app (env1 env2 : list macro) :
  names (env1 ++ env2) = (names env1 ++ names env2)%list.
Proof. apply map_app. Qed.

Lemma step_nodup st l st' :
  step st l = Ok st' ->
  NoDup (names (st_macros st)) -> NoDup (names (st_macros st')).
Proof.
  destruct l as [| c | p | n | n b |]; simpl.
  - now intros [= <-].
  - now intros [= <-].
  - now intros [= <-].
  - now intros [= <-].
  - destruct (active st); [|now intros [= <-]].
    destruct (lookup_macro n (st_macros st)) as [m|] eqn:E.
    + destruct (body_eq_dec (m_body m) b); [now intros [= <-] | discriminate].
    + intros [= <-] Hnd. simpl. rewrite names_app. simpl.
      apply lookup_macro_none in E.
      apply NoDup_app; [assumption | constructor; [simpl; tauto | constructor] |].
      intros x Hx [<- | []]. auto.
  - destruct (st_conds st); [discriminate | now intros [= <-]].
Qed.

Lemma run_nodup ls :
  forall st st',
    run st ls = Ok st' ->
    NoDup (names (st_macros st)) -> NoDup (names (st_macros st')).
Proof.
  induction ls as [|l ls IH]; simpl; intros st st'.
  - now intros [= <-].
  - destruct (step st l) as [st1|e] eqn:E; [|discriminate].
    intros Hrun Hnd. apply (IH _ _ Hrun). exact (step_nodup _ _ _ E Hnd).
Qed.

Theorem preprocess_nodup env0 ls env :
  preprocess env0 ls = Ok env -> NoDup (names env0) -> NoDup (names env).
Proof.
  unfold preprocess.
  destruct (run (mkState env0 [] None) ls) as [st|e] eqn:E; [|discriminate].
  destruct (st_conds st); [|discriminate].
  intros [= <-] Hnd. exact (run_nodup _ _ _ E Hnd).
Qed.

End Reader.

(** ** The table of MX_Device.h *)

Lemma preprocess_MX_Device_h : preprocess [] MX_Device_h = Ok MX_Device_env.
Proof. vm_compute. reflexivity. Qed.

(** Line numbers of the embedded text are those of the file. *)
Lemma MX_Device_h_lines :
  List.length MX_Device_h = 90 /\
  nth_error MX_Device_h 12 = Some (Define "MX_DEVICE_VERSION" ["0x01000000"]) /\
  nth_error MX_Device_h 23 = Some (Define "MX_I2C1_SCL_GPIOx" ["GPIOB"]) /\
  nth_error MX_Device_h 42 = Some (Define "MX_SPI1_PERIPH_CLOCK_FREQ" ["84000000"]) /\
  nth_error MX_Device_h 86 = Some (Define "MX_USB_OTG_FS_Device_Only" ["1"]).
Proof. repeat split. Qed.

(** Nothing in the header is skipped on a first inclusion: the table is
    the list of the written definitions, in the order of the file. *)
Lemma MX_Device_env_definitions : MX_Device_env = definitions MX_Device_h.
Proof. vm_compute. reflexivity. Qed.

Lemma MX_Device_env_nodup : NoDup (names MX_Device_env).
Proof.
  apply (preprocess_nodup [] MX_Device_h).
  - exact preprocess_MX_Device_h.
  - constructor.
Qed.

(** The include guard: a second inclusion adds nothing and fails nowhere. *)
Lemma MX_Device_h_included_twice :
  preprocess MX_Device_env MX_Device_h = Ok MX_Device_env.
Proof. vm_compute. reflexivity. Qed.

Lemma constants_nodup (env : list macro) :
  NoDup (names env) -> NoDup (names (constants env)).
Proof.
  unfold constants.
  induction env as [|m env IH]; simpl; [auto|].
  intros Hnd. inversion Hnd as [|? ? Hnot Hnd']; subst.
  destruct (m_body m); [auto|].
  simpl. constructor; [|auto].
  intros Hin. apply Hnot. unfold names in *.
  apply in_map_iff in Hin as (m' & Hname & Hin).
  apply filter_In in Hin as [Hin _].
  apply in_map_iff. eauto.
Qed.

Lemma constants_reference_table : constants MX_Device_env = reference_table.
Proof. vm_compute. reflexivity. Qed.

Lemma reference_table_nodup : NoDup (names reference_table).
Proof.
  rewrite <- constants_reference_table.
  apply constants_nodup, MX_Device_env_nodup.
Qed.

Lemma defined_lookup (env : list macro) (n : string) :
  defined n env = true -> exists m, lookup_macro n env = Some m.
Proof.
  unfold defined. destruct (lookup_macro n env) as [m|]; [eauto | discriminate].
Qed.

Lemma pin_entries_definitions :
  pin_entries (definitions MX_Device_h)
  = ["I2C1_SCL"; "I2C1_SDA"; "SPI1_MISO"; "SPI1_MOSI"; "SPI1_SCK"].
Proof. vm_compute. reflexivity. Qed.

Lemma binds_lookup (env : list macro) (n : string) (m : macro) :
  lookup_macro n env = Some m -> binds env n (m_body m).
Proof.
  intros H. apply lookup_macro_sound in H as [Hin Hn]. now exists m.
Qed.

(** A table listing the reference constants in any order is equivalent to
    the reference table. *)
Lemma equivalent_permutation (t : list macro) :
  Permutation t reference_table -> equivalent t reference_table.
Proof.
  intros HP. apply equivalent_same_macros.
  - apply (Permutation_NoDup (l := names reference_table)).
    + unfold names. apply Permutation_map. now symmetry.
    + apply reference_table_nodup.
  - apply reference_table_nodup.
  - intros m. split; apply Permutation_in; [assumption | now symmetry].
Qed.

(** ** The claims *)

(** C1.  Reading MX_Device.h succeeds and gives a table in which every name
    the file defines is bound to the macro written in the file: the same
    peripheral banner (which is also the peripheral whose name prefixes the
    macro's) and the same replacement list; the table binds nothing else.
    The constants of the table are, name by name, group by group and value
    by value, those of the reference table built from the specification's
    data model, and any table equivalent to the reference table binds every
    constant of the file to the same group and value. *)
Theorem MX_Device_table_equivalence :
  preprocess [] MX_Device_h = Ok MX_Device_env /\
  (forall m, In m (definitions MX_Device_h) ->
     lookup_macro (m_name m) MX_Device_env = Some m /\
     m_group m = group_of_name (m_name m)) /\
  (forall n m, lookup_macro n MX_Device_env = Some m ->
     In m (definitions MX_Device_h) /\ m_name m = n) /\
  constants MX_Device_env = reference_table /\
  (forall t, equivalent t reference_table ->
     forall m, In m (constants (definitions MX_Device_h)) ->
       lookup_macro (m_name m) t = Some m).
Proof.
  split; [exact preprocess_MX_Device_h|].
  split; [each_member|].
  split.
  { intros n m H. apply lookup_macro_sound in H.
    rewrite <- MX_Device_env_definitions. exact H. }
  split; [exact constants_reference_table|].
  intros t Heq m Hin. rewrite Heq.
  rewrite <- MX_Device_env_definitions, constants_reference_table in Hin.
  apply lookup_macro_complete; [apply reference_table_nodup | exact Hin].
Qed.

Lemma MX_Device_table_equivalence_witness :
  equivalent (rev reference_table) reference_table /\
  In (mkMacro "MX_I2C1_SCL_GPIOx" (Some "I2C1") ["GPIOB"])
     (constants (definitions MX_Device_h)) /\
  lookup_macro "MX_I2C1_SCL_GPIOx" (rev reference_table)
  = Some (mkMacro "MX_I2C1_SCL_GPIOx" (Some "I2C1") ["GPIOB"]).
Proof.
  assert (He : equivalent (rev reference_table) reference_table)
    by (apply equivalent_permutation; symmetry; apply Permutation_rev).
  assert (Hin : In (mkMacro "MX_I2C1_SCL_GPIOx" (Some "I2C1") ["GPIOB"])
                   (constants (definitions MX_Device_h)))
    by (vm_compute; repeat (first [left; reflexivity | right])).
  split; [exact He|]. split; [exact Hin|].
  exact (proj2 (proj2 (proj2 (proj2 MX_Device_table_equivalence)))
           (rev reference_table) He _ Hin).
Defined.

(** C2.  MX_SPI1_PERIPH_CLOCK_FREQ stands for the integer 84000000, and
    among the peripherals of the file SPI1 is the only one with a
    clock-frequency constant: the only definition named as one lies under
    the SPI1 banner, and of the four names MX_<peripheral>_PERIPH_CLOCK_FREQ
    only the SPI1 one is defined. *)
Theorem SPI1_clock_frequency :
  macro_value MX_Device_env "MX_SPI1_PERIPH_CLOCK_FREQ" = Some 84000000%Z /\
  filter (fun m => is_clock_freq_name (m_name m)) (definitions MX_Device_h)
  = [mkMacro "MX_SPI1_PERIPH_CLOCK_FREQ" (Some "SPI1") ["84000000"]] /\
  filter (fun p => defined (clock_freq_name p) MX_Device_env)
         (peripherals MX_Device_h)
  = ["SPI1"].
Proof. repeat split; vm_compute; reflexivity. Qed.

(** C3.  MX_USB_DEVICE_VM resolves to the token Cdc_FS, and the companion
    constant of that mode, MX_USB_DEVICE_Cdc_FS, stands for 1. *)
Theorem USB_DEVICE_virtual_mode :
  resolve MX_Device_env "MX_USB_DEVICE_VM" = Some "Cdc_FS" /\
  macro_value MX_Device_env "MX_USB_DEVICE_Cdc_FS" = Some 1%Z /\
  vm_name "USB_DEVICE" = "MX_USB_DEVICE_VM" /\
  vm_companion "USB_DEVICE" "Cdc_FS" = "MX_USB_DEVICE_Cdc_FS".
Proof. repeat split; vm_compute; reflexivity. Qed.

(** C4.  MX_I2C1_SCL_GPIOx resolves to the token GPIOB. *)
Theorem I2C1_SCL_port :
  resolve MX_Device_env "MX_I2C1_SCL_GPIOx" = Some "GPIOB" /\
  lookup_macro "MX_I2C1_SCL_GPIOx" MX_Device_env
  = Some (mkMacro "MX_I2C1_SCL_GPIOx" (Some "I2C1") ["GPIOB"]).
Proof. split; vm_compute; reflexivity. Qed.

(** C5.  The speed of SPI1_SCK resolves to GPIO_SPEED_FREQ_VERY_HIGH; the
    speeds of SPI1_MISO and SPI1_MOSI resolve to GPIO_SPEED_FREQ_LOW. *)
Theorem SPI1_pin_speeds :
  resolve MX_Device_env "MX_SPI1_SCK_GPIO_Speed" = Some "GPIO_SPEED_FREQ_VERY_HIGH" /\
  resolve MX_Device_env "MX_SPI1_MISO_GPIO_Speed" = Some "GPIO_SPEED_FREQ_LOW" /\
  resolve MX_Device_env "MX_SPI1_MOSI_GPIO_Speed" = Some "GPIO_SPEED_FREQ_LOW".
Proof. repeat split; vm_compute; reflexivity. Qed.

(** C6.  No name is defined twice in the file, so a name never has two
    replacement lists; the pin entries of the file are I2C1_SCL, I2C1_SDA,
    SPI1_MISO, SPI1_MOSI and SPI1_SCK, and each of them has exactly one
    port/mode/speed/alternate-function tuple. *)
Theorem pin_tuple_unique :
  NoDup (names (definitions MX_Device_h)) /\
  (forall n b1 b2,
     binds (definitions MX_Device_h) n b1 ->
     binds (definitions MX_Device_h) n b2 -> b1 = b2) /\
  pin_entries (definitions MX_Device_h)
  = ["I2C1_SCL"; "I2C1_SDA"; "SPI1_MISO"; "SPI1_MOSI"; "SPI1_SCK"] /\
  (forall pin, In pin (pin_entries (definitions MX_Device_h)) ->
     exists t, pin_tuple (definitions MX_Device_h) pin t /\
               forall t', pin_tuple (definitions MX_Device_h) pin t' -> t' = t).
Proof.
  assert (Hnd : NoDup (names (definitions MX_Device_h)))
    by (rewrite <- MX_Device_env_definitions; apply MX_Device_env_nodup).
  assert (Hfun : forall n b1 b2,
             binds (definitions MX_Device_h) n b1 ->
             binds (definitions MX_Device_h) n b2 -> b1 = b2)
    by (intros n b1 b2; apply binds_functional, Hnd).
  split; [exact Hnd|]. split; [exact Hfun|].
  split; [exact pin_entries_definitions|].
  intros pin Hpin.
  assert (Hex : exists port mode speed af,
             lookup_macro (attribute_name pin "GPIOx") (definitions MX_Device_h)
             = Some port /\
             lookup_macro (attribute_name pin "GPIO_Mode") (definitions MX_Device_h)
             = Some mode /\
             lookup_macro (attribute_name pin "GPIO_Speed") (definitions MX_Device_h)
             = Some speed /\
             lookup_macro (attribute_name pin "GPIO_AF") (definitions MX_Device_h)
             = Some af).
  { assert (Hdef : forall attr,
               In attr ["GPIOx"; "GPIO_Mode"; "GPIO_Speed"; "GPIO_AF"] ->
               defined (attribute_name pin attr) (definitions MX_Device_h) = true).
    { rewrite pin_entries_definitions in Hpin.
      intros attr Hattr. members Hpin; members Hattr; vm_compute; reflexivity. }
    destruct (defined_lookup _ _ (Hdef "GPIOx" ltac:(simpl; tauto))) as [port Hp].
    destruct (defined_lookup _ _ (Hdef "GPIO_Mode" ltac:(simpl; tauto))) as [mode Hm].
    destruct (defined_lookup _ _ (Hdef "GPIO_Speed" ltac:(simpl; tauto))) as [speed Hs].
    destruct (defined_lookup _ _ (Hdef "GPIO_AF" ltac:(simpl; tauto))) as [af Ha].
    exists port, mode, speed, af. auto. }
  destruct Hex as (port & mode & speed & af & Hp & Hm & Hs & Ha).
  apply binds_lookup in Hp, Hm, Hs, Ha.
  exists (m_body port, m_body mode, m_body speed, m_body af).
  split; [repeat split; assumption|].
  intros [[[port' mode'] speed'] af'] (Hp' & Hm' & Hs' & Ha').
  repeat f_equal; eapply Hfun; eassumption.
Qed.

Lemma pin_tuple_unique_witness :
  In "SPI1_SCK" (pin_entries (definitions MX_Device_h)) /\
  exists t, pin_tuple (definitions MX_Device_h) "SPI1_SCK" t /\
            forall t', pin_tuple (definitions MX_Device_h) "SPI1_SCK" t' -> t' = t.
Proof.
  assert (Hin : In "SPI1_SCK" (pin_entries (definitions MX_Device_h)))
    by (vm_compute; repeat (first [left; reflexivity | right])).
  split; [exact Hin|].
  exact (proj2 (proj2 (proj2 pin_tuple_unique)) "SPI1_SCK" Hin).
Defined.

(** C7.  Each of the five pin entries has all seven attribute macros
    (_Pin, _GPIO_Pin, _GPIOx, _GPIO_Mode, _GPIO_PuPd, _GPIO_Speed,
    _GPIO_AF), each defined in the table and resolving to one token. *)
Theorem pin_attributes_complete :
  pin_entries MX_Device_env
  = ["I2C1_SCL"; "I2C1_SDA"; "SPI1_MISO"; "SPI1_MOSI"; "SPI1_SCK"] /\
  List.length pin_attributes = 7 /\
  forall pin attr,
    In pin (pin_entries MX_Device_env) -> In attr pin_attributes ->
    defined (attribute_name pin attr) MX_Device_env = true /\
    resolve MX_Device_env (attribute_name pin attr) <> None.
Proof.
  split; [rewrite MX_Device_env_definitions; exact pin_entries_definitions|].
  split; [reflexivity|].
  intros pin attr Hpin Hattr.
  rewrite MX_Device_env_definitions, pin_entries_definitions in Hpin.
  unfold pin_attributes in Hattr.
  members Hpin; members Hattr; (split; [vm_compute; reflexivity|]);
    vm_compute; discriminate.
Qed.

Lemma pin_attributes_complete_witness :
  In "I2C1_SDA" (pin_entries MX_Device_env) /\ In "GPIO_PuPd" pin_attributes /\
  defined (attribute_name "I2C1_SDA" "GPIO_PuPd") MX_Device_env = true /\
  resolve MX_Device_env (attribute_name "I2C1_SDA" "GPIO_PuPd") <> None.
Proof.
  assert (Hpin : In "I2C1_SDA" (pin_entries MX_Device_env))
    by (vm_compute; repeat (first [left; reflexivity | right])).
  assert (Hattr : In "GPIO_PuPd" pin_attributes)
    by (vm_compute; repeat (first [left; reflexivity | right])).
  split; [exact Hpin|]. split; [exact Hattr|].
  exact (proj2 (proj2 pin_attributes_complete) "I2C1_SDA" "GPIO_PuPd" Hpin Hattr).
Defined.

(** C8.  Reading the header raises no error, on a first inclusion or on a
    later one.  For every name the file defines, the lookup in the table
    returns a macro of that name, and its expansion is the same whatever the
    fuel, at or above the size of the table: it never runs out.  Every
    constant of the file moreover resolves to one token and can be tested
    by [#if]. *)
Theorem lookup_total :
  preprocess [] MX_Device_h = Ok MX_Device_env /\
  preprocess MX_Device_env MX_Device_h = Ok MX_Device_env /\
  (forall n, In n (names (definitions MX_Device_h)) ->
     (exists m, lookup_macro n MX_Device_env = Some m /\ m_name m = n) /\
     (forall fuel, List.length MX_Device_env <= fuel ->
        expand_fuel fuel MX_Device_env n = expand MX_Device_env n)) /\
  (forall m, In m (constants (definitions MX_Device_h)) ->
     evaluates MX_Device_env (m_name m) = true).
Proof.
  split; [exact preprocess_MX_Device_h|].
  split; [exact MX_Device_h_included_twice|].
  split.
  - intros n Hin. split.
    + destruct (lookup_macro n MX_Device_env) as [m|] eqn:E.
      * exists m. split; [reflexivity|].
        apply lookup_macro_sound in E as [_ E]. exact E.
      * apply lookup_macro_none in E. rewrite MX_Device_env_definitions in E.
        contradiction.
    + intros fuel. apply expand_fuel_enough.
  - apply (proj1 (forallb_forall
                    (fun m => evaluates MX_Device_env (m_name m))
                    (constants (definitions MX_Device_h)))).
    vm_compute. reflexivity.
Qed.

Lemma lookup_total_witness :
  In "MX_DEVICE_VERSION" (names (definitions MX_Device_h)) /\
  (exists m, lookup_macro "MX_DEVICE_VERSION" MX_Device_env = Some m /\
             m_name m = "MX_DEVICE_VERSION") /\
  expand_fuel 100 MX_Device_env "MX_DEVICE_VERSION"
  = expand MX_Device_env "MX_DEVICE_VERSION".
Proof.
  assert (Hin : In "MX_DEVICE_VERSION" (names (definitions MX_Device_h)))
    by (vm_compute; repeat (first [left; reflexivity | right])).
  assert (Hfuel : List.length MX_Device_env <= 100)
    by (vm_compute; repeat constructor).
  split; [exact Hin|].
  destruct (proj1 (proj2 (proj2 lookup_total)) "MX_DEVICE_VERSION" Hin)
    as [Hm Hf].
  split; [exact Hm | exact (Hf 100 Hfuel)].
Defined.

(** C9.  MX_USB_OTG_FS_VM resolves to the token Device_Only, and the
    companion constant of that mode, MX_USB_OTG_FS_Device_Only, stands
    for 1. *)
Theorem USB_OTG_FS_virtual_mode :
  resolve MX_Device_env "MX_USB_OTG_FS_VM" = Some "Device_Only" /\
  macro_value MX_Device_env "MX_USB_OTG_FS_Device_Only" = Some 1%Z /\
  vm_name "USB_OTG_FS" = "MX_USB_OTG_FS_VM" /\
  vm_companion "USB_OTG_FS" "Device_Only" = "MX_USB_OTG_FS_Device_Only".
Proof. repeat split; vm_compute; reflexivity. Qed.

(** C10.  The presence flags MX_I2C1, MX_SPI1, MX_USB_DEVICE and
    MX_USB_OTG_FS, one for each peripheral banner of the file, are defined
    and stand for 1, so both an [#ifdef] and an [#if] on any of them take
    the enabled branch. *)
Theorem presence_flags_enabled :
  map presence_flag (peripherals MX_Device_h)
  = ["MX_I2C1"; "MX_SPI1"; "MX_USB_DEVICE"; "MX_USB_OTG_FS"] /\
  Forall (fun flag =>
            macro_value MX_Device_env flag = Some 1%Z /\
            pp_ifdef MX_Device_env flag = true /\
            pp_if MX_Device_env flag = Some true)
         (map presence_flag (peripherals MX_Device_h)).
Proof.
  assert (Hflags : map presence_flag (peripherals MX_Device_h)
                   = ["MX_I2C1"; "MX_SPI1"; "MX_USB_DEVICE"; "MX_USB_OTG_FS"])
    by (vm_compute; reflexivity).
  split; [exact Hflags|]. rewrite Hflags.
  repeat (apply Forall_cons; [repeat split; vm_compute; reflexivity|]).
  apply Forall_nil.
Qed.


(** ** Including the header in a translation unit *)

Section Inclusion.

Implicit Types (st : pp_state) (ls : list line) (env : list macro).

Lemma run_app ls1 ls2 st :
  run st (ls1 ++ ls2) =
  match run st ls1 with
  | Ok st' => run st' ls2
  | Err e => Err e
  end.
Proof.
  revert st. induction ls1 as [|l ls1 IH]; intros st; simpl; [reflexivity|].
  destruct (step st l); [apply IH | reflexivity].
Qed.

(** In a group that is being skipped, lines without conditionals change
    neither the table nor the stack of conditionals. *)
Lemma run_plain_inactive ls :
  forall st,
    forallb plain ls = true -> active st = false ->
    run st ls = Ok (mkState (st_macros st) (st_conds st)
                            (last_group (st_group st) ls)).
Proof.
  induction ls as [|l ls IH]; intros st Hpl Hact; simpl.
  - now destruct st.
  - simpl in Hpl. apply andb_prop in Hpl as [Hl Hpl].
    destruct l as [| c | p | n | n b |]; simpl in *; try discriminate;
      try (rewrite (IH st Hpl Hact); reflexivity).
    + rewrite (IH (mkState (st_macros st) (st_conds st) (Some p)) Hpl Hact).
      reflexivity.
    + rewrite Hact. rewrite (IH st Hpl Hact). reflexivity.
Qed.

(** In a group that is being read, lines without conditionals whose
    definitions are new and pairwise distinct are appended to the table. *)
Lemma run_plain_fresh ls :
  forall st,
    forallb plain ls = true -> active st = true ->
    NoDup (names (definitions_from (st_group st) ls)) ->
    (forall n, In n (names (definitions_from (st_group st) ls)) ->
               lookup_macro n (st_macros st) = None) ->
    run st ls = Ok (mkState (st_macros st ++ definitions_from (st_group st) ls)
                            (st_conds st)
                            (last_group (st_group st) ls)).
Proof.
  induction ls as [|l ls IH]; intros st Hpl Hact Hnd Hnew; simpl.
  - rewrite app_nil_r. now destruct st.
  - simpl in Hpl. apply andb_prop in Hpl as [Hl Hpl].
    destruct l as [| c | p | n | n b |]; simpl in *; try discriminate;
      try (rewrite (IH st Hpl Hact Hnd Hnew); reflexivity).
    + rewrite (IH (mkState (st_macros st) (st_conds st) (Some p)) Hpl Hact Hnd Hnew).
      reflexivity.
    + rewrite Hact. rewrite (Hnew n (or_introl eq_refl)).
      inversion Hnd as [|? ? Hnot Hnd']; subst.
      rewrite (IH (mkState (st_macros st ++ [mkMacro n (st_group st) b])
                           (st_conds st) (st_group st)) Hpl Hact Hnd').
      * simpl. rewrite <- app_assoc. reflexivity.
      * intros n' Hin. simpl. rewrite lookup_macro_app.
        rewrite (Hnew n' (or_intror Hin)). simpl.
        destruct (String.eqb n' n) eqn:E; [|reflexivity].
        apply String.eqb_eq in E. subst. contradiction.
Qed.



End Inclusion.

(** ** The shape of MX_Device.h *)

Lemma MX_Device_h_shape :
  MX_Device_h = (header_prelude ++ Ifndef guard :: header_body ++ [Endif])%list.
Proof. vm_compute. reflexivity. Qed.

Lemma header_body_plain : forallb plain header_body = true.
Proof. vm_compute. reflexivity. Qed.

Lemma header_body_definitions :
  definitions_from None header_body = MX_Device_env.
Proof. vm_compute. reflexivity. Qed.

Lemma header_body_names (g : option string) :
  names (definitions_from g header_body) = names MX_Device_env.
Proof. vm_compute. reflexivity. Qed.

Lemma header_body_last_group (g : option string) :
  last_group g header_body = Some "USB_OTG_FS".
Proof. vm_compute. reflexivity. Qed.

Lemma run_header_prelude (st : pp_state) : run st header_prelude = Ok st.
Proof. reflexivity. Qed.

Lemma run_ifndef (st : pp_state) (n : string) (ls : list line) :
  run st (Ifndef n :: ls) =
  run (mkState (st_macros st)
               ((active st && negb (defined n (st_macros st))) :: st_conds st)
               (st_group st)) ls.
Proof. reflexivity. Qed.

Lemma guard_defined_by_header : In guard (names MX_Device_env).
Proof. vm_compute. left. reflexivity. Qed.

(** What reading the header does to any state of the reader: skipped whole
    when the group around it is skipped or its guard is defined, otherwise
    read between the guard's #ifndef and #endif. *)
Lemma run_header_skipped (st : pp_state) :
  active st && negb (defined guard (st_macros st)) = false ->
  run st MX_Device_h
  = Ok (mkState (st_macros st) (st_conds st) (Some "USB_OTG_FS")).
Proof.
  intros Hskip.
  rewrite MX_Device_h_shape, run_app, run_header_prelude, run_ifndef, run_app.
  rewrite Hskip.
  rewrite run_plain_inactive; [| exact header_body_plain | reflexivity].
  rewrite header_body_last_group. reflexivity.
Qed.

Lemma run_header_read (st : pp_state) :
  active st && negb (defined guard (st_macros st)) = true ->
  run st MX_Device_h
  = match run (mkState (st_macros st) (true :: st_conds st) (st_group st))
              header_body with
    | Ok st' =>
        match st_conds st' with
        | [] => Err EndifWithoutIf
        | _ :: cs => Ok (mkState (st_macros st') cs (st_group st'))
        end
    | Err e => Err e
    end.
Proof.
  intros Hread.
  rewrite MX_Device_h_shape, run_app, run_header_prelude, run_ifndef, run_app.
  rewrite Hread. destruct (run _ header_body) as [st'|e]; [|reflexivity].
  simpl. destruct (st_conds st'); reflexivity.
Qed.

Lemma clashes_none (env0 : list macro) (ls : list line) (n : string) :
  clashes env0 ls = false -> In n (names (definitions ls)) ->
  lookup_macro n env0 = None.
Proof.
  unfold clashes, names. intros Hc Hin.
  apply in_map_iff in Hin as (m & <- & Hin).
  destruct (lookup_macro (m_name m) env0) as [m'|] eqn:E; [|reflexivity].
  assert (Hex : existsb (fun m => defined (m_name m) env0) (definitions ls) = true).
  { apply existsb_exists. exists m. split; [exact Hin|].
    unfold defined. now rewrite E. }
  congruence.
Qed.

Lemma clean_not_guarded (env0 : list macro) :
  clashes env0 MX_Device_h = false -> defined guard env0 = false.
Proof.
  intros Hc. unfold defined.
  rewrite (clashes_none env0 MX_Device_h guard Hc); [reflexivity|].
  rewrite <- MX_Device_env_definitions. exact guard_defined_by_header.
Qed.

(** ** Properties of the inclusion *)

(** X1.  Where the guard MX_DEVICE_H__ is already defined, the header is
    skipped whole: reading it succeeds and leaves the table as it was,
    whatever else the table holds. *)
Theorem header_skipped_when_guarded (env0 : list macro) :
  defined guard env0 = true ->
  preprocess env0 MX_Device_h = Ok env0.
Proof.
  intros Hg. unfold preprocess.
  rewrite run_header_skipped; [reflexivity|].
  simpl. rewrite Hg. reflexivity.
Qed.

Lemma header_skipped_when_guarded_witness :
  preprocess [mkMacro "MX_DEVICE_H__" None []; mkMacro "MX_I2C1" None ["0"]]
             MX_Device_h
  = Ok [mkMacro "MX_DEVICE_H__" None []; mkMacro "MX_I2C1" None ["0"]].
Proof.
  apply (header_skipped_when_guarded
           [mkMacro "MX_DEVICE_H__" None []; mkMacro "MX_I2C1" None ["0"]]).
  vm_compute. reflexivity.
Defined.

(** X2.  In a table that defines none of the header's names, reading the
    header succeeds and appends exactly the header's macros, in the order of
    the file, after the macros that were there. *)
Theorem header_clean_inclusion (env0 : list macro) :
  clashes env0 MX_Device_h = false ->
  preprocess env0 MX_Device_h = Ok (env0 ++ MX_Device_env)%list.
Proof.
  intros Hc. unfold preprocess.
  rewrite run_header_read
    by (simpl; rewrite (clean_not_guarded env0 Hc); reflexivity).
  rewrite run_plain_fresh.
  - cbn [st_macros st_conds st_group].
    rewrite header_body_definitions. reflexivity.
  - exact header_body_plain.
  - reflexivity.
  - rewrite header_body_names. exact MX_Device_env_nodup.
  - cbn [st_macros st_group]. intros n Hin. rewrite header_body_names in Hin.
    apply (clashes_none env0 MX_Device_h n Hc).
    rewrite <- MX_Device_env_definitions. exact Hin.
Qed.

Lemma header_clean_inclusion_witness :
  preprocess [mkMacro "STM32F407xx" None []; mkMacro "HSE_VALUE" None ["8000000"]]
             MX_Device_h
  = Ok ([mkMacro "STM32F407xx" None []; mkMacro "HSE_VALUE" None ["8000000"]]
        ++ MX_Device_env)%list.
Proof.
  apply (header_clean_inclusion
           [mkMacro "STM32F407xx" None []; mkMacro "HSE_VALUE" None ["8000000"]]).
  vm_compute. reflexivity.
Defined.

(** X3.  Including the header a second time is the same as including it
    once: after a first inclusion in a table without clashes, a second
    reading succeeds and gives the same table. *)
Theorem header_inclusion_idempotent (env0 env : list macro) :
  clashes env0 MX_Device_h = false ->
  preprocess env0 MX_Device_h = Ok env ->
  preprocess env MX_Device_h = Ok env.
Proof.
  intros Hc Hfirst. rewrite (header_clean_inclusion env0 Hc) in Hfirst.
  injection Hfirst as <-.
  apply header_skipped_when_guarded. unfold defined.
  rewrite lookup_macro_app.
  destruct (lookup_macro guard env0); [reflexivity|].
  destruct (lookup_macro guard MX_Device_env) as [m|] eqn:E; [reflexivity|].
  apply lookup_macro_none in E. exfalso. exact (E guard_defined_by_header).
Qed.

Lemma header_inclusion_idempotent_witness :
  preprocess ([mkMacro "USE_HAL_DRIVER" None []] ++ MX_Device_env)%list MX_Device_h
  = Ok ([mkMacro "USE_HAL_DRIVER" None []] ++ MX_Device_env)%list.
Proof.
  apply (header_inclusion_idempotent [mkMacro "USE_HAL_DRIVER" None []]).
  - vm_compute. reflexivity.
  - vm_compute. reflexivity.
Defined.








(** ** Constants among other macros *)











(** ** The pin entries and the names of the header *)

Lemma pin_entries_MX_Device_env :
  pin_entries MX_Device_env
  = ["I2C1_SCL"; "I2C1_SDA"; "SPI1_MISO"; "SPI1_MOSI"; "SPI1_SCK"].
Proof. vm_compute. reflexivity. Qed.

(** X9.  In every pin entry the symbolic pin name agrees with the port and
    the pin bit of the entry (port GPIO<X> and bit GPIO_PIN_<k> give P<X><k>),
    and no two entries name the same pin. *)
Theorem pin_symbols_consistent :
  (forall pin, In pin (pin_entries MX_Device_env) ->
     resolve MX_Device_env (attribute_name pin "Pin") <> None /\
     resolve MX_Device_env (attribute_name pin "Pin")
     = pin_symbol_expected MX_Device_env pin) /\
  NoDup (map (fun pin => resolve MX_Device_env (attribute_name pin "Pin"))
             (pin_entries MX_Device_env)).
Proof.
  split.
  - intros pin Hpin. rewrite pin_entries_MX_Device_env in Hpin.
    members Hpin; (split; [vm_compute; discriminate | vm_compute; reflexivity]).
  - rewrite pin_entries_MX_Device_env.
    assert (Hsyms : map (fun pin => resolve MX_Device_env (attribute_name pin "Pin"))
                        ["I2C1_SCL"; "I2C1_SDA"; "SPI1_MISO"; "SPI1_MOSI"; "SPI1_SCK"]
                    = [Some "PB6"; Some "PB9"; Some "PA6"; Some "PA7"; Some "PA5"])
      by (vm_compute; reflexivity).
    rewrite Hsyms.
    repeat (constructor; [simpl; intuition discriminate|]). constructor.
Qed.

Lemma pin_symbols_consistent_witness :
  resolve MX_Device_env (attribute_name "SPI1_MOSI" "Pin") <> None /\
  resolve MX_Device_env (attribute_name "SPI1_MOSI" "Pin")
  = pin_symbol_expected MX_Device_env "SPI1_MOSI".
Proof.
  apply (proj1 pin_symbols_consistent "SPI1_MOSI").
  vm_compute. repeat (first [left; reflexivity | right]).
Defined.

(** X10.  Every pin entry is in an alternate-function mode, and its
    alternate function is one of the peripheral under whose banner the
    entry is defined (GPIO_AF4_I2C1 for the I2C1 pins, GPIO_AF5_SPI1 for the
    SPI1 pins). *)
Theorem pins_routed_to_their_peripheral :
  forall pin, In pin (pin_entries MX_Device_env) ->
    pin_routed MX_Device_env pin = true /\
    pin_group MX_Device_env pin = group_of_name (attribute_name pin "Pin").
Proof.
  intros pin Hpin. rewrite pin_entries_MX_Device_env in Hpin.
  members Hpin; split; vm_compute; reflexivity.
Qed.

Lemma pins_routed_to_their_peripheral_witness :
  pin_routed MX_Device_env "I2C1_SCL" = true /\
  pin_group MX_Device_env "I2C1_SCL" = group_of_name (attribute_name "I2C1_SCL" "Pin").
Proof.
  apply (pins_routed_to_their_peripheral "I2C1_SCL").
  vm_compute. repeat (first [left; reflexivity | right]).
Defined.

Lemma header_names_prefixed :
  forallb (fun m => starts_with "MX_" (m_name m)) (definitions MX_Device_h) = true.
Proof. vm_compute. reflexivity. Qed.

Lemma no_prefix_lookup (pre n : string) (env0 : list macro) :
  forallb (fun m => negb (starts_with pre (m_name m))) env0 = true ->
  starts_with pre n = true ->
  lookup_macro n env0 = None.
Proof.
  intros Hall Hn.
  induction env0 as [|m env0 IH]; simpl in *; [reflexivity|].
  apply andb_prop in Hall as [Hm Hall].
  destruct (String.eqb n (m_name m)) eqn:E; [|auto].
  apply String.eqb_eq in E. subst. rewrite Hn in Hm. discriminate.
Qed.

(** X11.  Every name the header defines begins with MX_, so in a table
    where no macro name begins with MX_ the header is read without any
    clash: it succeeds and appends its macros. *)
Theorem header_namespace (env0 : list macro) :
  forallb (fun m => negb (starts_with "MX_" (m_name m))) env0 = true ->
  preprocess env0 MX_Device_h = Ok (env0 ++ MX_Device_env)%list.
Proof.
  intros Hfree. apply header_clean_inclusion.
  unfold clashes.
  destruct (existsb _ (definitions MX_Device_h)) eqn:E; [|reflexivity].
  apply existsb_exists in E as (m & Hin & Hdef).
  pose proof (proj1 (forallb_forall _ _) header_names_prefixed m Hin) as Hpre.
  unfold defined in Hdef.
  rewrite (no_prefix_lookup "MX_" (m_name m) env0 Hfree Hpre) in Hdef.
  discriminate.
Qed.

Lemma header_namespace_witness :
  preprocess [mkMacro "USE_HAL_DRIVER" None []; mkMacro "GPIOB" None ["GPIOB_BASE"]]
             MX_Device_h
  = Ok ([mkMacro "USE_HAL_DRIVER" None []; mkMacro "GPIOB" None ["GPIOB_BASE"]]
        ++ MX_Device_env)%list.
Proof.
  apply (header_namespace
           [mkMacro "USE_HAL_DRIVER" None []; mkMacro "GPIOB" None ["GPIOB_BASE"]]).
  vm_compute. reflexivity.
Defined.

(** X12.  No constant of the header is defined in terms of another macro of
    the header: with the header's macros alone, every constant expands in one
    step to its own replacement list, and that is a single token. *)
Theorem constants_expand_in_one_step :
  forall m, In m (constants MX_Device_env) ->
    expand MX_Device_env (m_name m) = m_body m /\
    List.length (m_body m) = 1 /\
    forallb (fun t => negb (defined t MX_Device_env)) (m_body m) = true.
Proof.
  assert (H : forallb
                (fun m =>
                   (if body_eq_dec (expand MX_Device_env (m_name m)) (m_body m)
                    then true else false)
                   && Nat.eqb (List.length (m_body m)) 1
                   && forallb (fun t => negb (defined t MX_Device_env)) (m_body m))
                (constants MX_Device_env) = true)
    by (vm_compute; reflexivity).
  intros m Hin. apply (proj1 (forallb_forall _ _) H) in Hin.
  apply andb_prop in Hin as [Hin H3]. apply andb_prop in Hin as [H1 H2].
  destruct (body_eq_dec (expand MX_Device_env (m_name m)) (m_body m));
    [|discriminate].
  apply Nat.eqb_eq in H2. auto.
Qed.

Lemma constants_expand_in_one_step_witness :
  expand MX_Device_env "MX_USB_DEVICE_VM" = ["Cdc_FS"] /\
  List.length ["Cdc_FS"] = 1 /\
  forallb (fun t => negb (defined t MX_Device_env)) ["Cdc_FS"] = true.
Proof.
  apply (constants_expand_in_one_step
           (mkMacro "MX_USB_DEVICE_VM" (Some "USB_DEVICE") ["Cdc_FS"])).
  vm_compute. repeat (first [left; reflexivity | right]).
Defined.

(** X13.  Every pin entry belongs to I2C1 or to SPI1; the I2C1 pins are
    open-drain alternate-function outputs with the pull-up on, the SPI1 pins
    push-pull alternate-function outputs without pull resistor. *)
Theorem pin_drive_by_peripheral :
  forall pin, In pin (pin_entries MX_Device_env) ->
    (pin_group MX_Device_env pin = Some "I2C1" /\
     pin_drive MX_Device_env pin = Some ("GPIO_MODE_AF_OD", "GPIO_PULLUP")) \/
    (pin_group MX_Device_env pin = Some "SPI1" /\
     pin_drive MX_Device_env pin = Some ("GPIO_MODE_AF_PP", "GPIO_NOPULL")).
Proof.
  intros pin Hpin. rewrite pin_entries_MX_Device_env in Hpin.
  members Hpin;
    first [ left; split; vm_compute; reflexivity
          | right; split; vm_compute; reflexivity ].
Qed.

Lemma pin_drive_by_peripheral_witness :
  (pin_group MX_Device_env "I2C1_SDA" = Some "I2C1" /\
   pin_drive MX_Device_env "I2C1_SDA" = Some ("GPIO_MODE_AF_OD", "GPIO_PULLUP")) \/
  (pin_group MX_Device_env "I2C1_SDA" = Some "SPI1" /\
   pin_drive MX_Device_env "I2C1_SDA" = Some ("GPIO_MODE_AF_PP", "GPIO_NOPULL")).
Proof.
  apply (pin_drive_by_peripheral "I2C1_SDA").
  vm_compute. repeat (first [left; reflexivity | right]).
Defined.
